(** * Sign-up and sign-in forms of the UFC predictor client

    A shallow embedding of the form logic of
    [client/src/app/signup/page.tsx] (the sign-up page) and of the sign-in
    page, together with the part of the JavaScript runtime the two pages
    rely on: strings as sequences of UTF-16 code units, [String.prototype.trim],
    [RegExp.prototype.test] for the regular-expression literals that occur in
    the source, and React's batching of state updates inside one event
    handler. *)

From Stdlib Require Import NArith Ascii String Bool Lia.
From stdpp Require Import base decidable countable list strings gmap.

Open Scope N_scope.
Open Scope nat_scope.

(** ** JavaScript strings *)

(** A JavaScript string is a finite sequence of UTF-16 code units; [length],
    [===], [trim] and a regular expression without the [u] flag all work on
    code units. *)
Abbreviation code_unit := N.
Abbreviation jsstring := (list N).

(** The literal of the source text, for the ASCII literals the pages use. *)
Definition lit (s : string) : jsstring :=
  List.map N_of_ascii (list_ascii_of_string s).

(** [cu "@"] is the code unit of an ASCII character. *)
Definition cu (a : ascii) : code_unit := N_of_ascii a.

(** ECMAScript [LineTerminator]: LF, CR, LS, PS. *)
Definition isLineTerminator (c : code_unit) : bool :=
  ((c =? 10) || (c =? 13) || (c =? 8232) || (c =? 8233))%N.

(** ECMAScript [WhiteSpace]: TAB, VT, FF, ZWNBSP and the Unicode category
    Zs (SP, NBSP, U+1680, U+2000..U+200A, U+202F, U+205F, U+3000). *)
Definition isWhiteSpace (c : code_unit) : bool :=
  ((c =? 9) || (c =? 11) || (c =? 12) || (c =? 32) || (c =? 160)
   || (c =? 5760) || ((8192 <=? c) && (c <=? 8202))
   || (c =? 8239) || (c =? 8287) || (c =? 12288) || (c =? 65279))%N.

(** What [trim] strips and what [\s] matches: white space and line
    terminators. *)
Definition isSpace (c : code_unit) : bool :=
  isWhiteSpace c || isLineTerminator c.

Fixpoint trimStart (s : jsstring) : jsstring :=
  match s with
  | c :: s' => if isSpace c then trimStart s' else s
  | [] => []
  end.

Definition trimEnd (s : jsstring) : jsstring :=
  rev (trimStart (rev s)).

(** [String.prototype.trim]. *)
Definition trim (s : jsstring) : jsstring := trimEnd (trimStart s).

(** [!value] for a string: only the empty string is falsy. *)
Definition falsy (s : jsstring) : bool :=
  match s with [] => true | _ => false end.

(** [a === b] on strings. *)
Definition strict_eq (a b : jsstring) : bool := bool_decide (a = b).

(** ** Regular expressions

    The fragment of ECMAScript patterns that the source uses: the
    assertions [^] and [$] (no [m] flag), the atoms [.], a literal character
    and a (negated) character class, the greedy quantifiers [*] and [+] on an
    atom, the positive lookahead [(?=...)], and concatenation.  No literal of
    the source carries a flag. *)

Inductive class_item :=
  | CChar (c : code_unit)          (* a single character *)
  | CRange (lo hi : code_unit)     (* lo-hi *)
  | CDigit                         (* \d *)
  | CSpace.                        (* \s *)

Inductive atom :=
  | Dot                            (* .      *)
  | Chr (c : code_unit)            (* c, \.  *)
  | Esc_d                          (* \d     *)
  | Cls (items : list class_item)  (* [...]  *)
  | NCls (items : list class_item) (* [^...] *).

Inductive regex :=
  | Empty
  | Bol                            (* ^ *)
  | Eol                            (* $ *)
  | One (a : atom)
  | Star (a : atom)                (* a* *)
  | Plus (a : atom)                (* a+ *)
  | Lookahead (r : regex)          (* (?=r) *)
  | Seq (r1 r2 : regex).

Definition isDigit (c : code_unit) : bool := ((48 <=? c) && (c <=? 57))%N.

Definition in_item (c : code_unit) (it : class_item) : bool :=
  match it with
  | CChar d => (c =? d)%N
  | CRange lo hi => ((lo <=? c) && (c <=? hi))%N
  | CDigit => isDigit c
  | CSpace => isSpace c
  end.

Definition sat (a : atom) (c : code_unit) : bool :=
  match a with
  | Dot => negb (isLineTerminator c)
  | Chr d => (c =? d)%N
  | Esc_d => isDigit c
  | Cls items => existsb (in_item c) items
  | NCls items => negb (existsb (in_item c) items)
  end.

(** The matcher, in the continuation style of the ECMAScript specification:
    [matcher r k i s] runs [r] at index [i] of the input, where [s] is the
    rest of the input from [i] on, and hands every way of matching to the
    continuation [k] until one succeeds. *)
Definition cont := nat -> jsstring -> bool.

Fixpoint star (p : code_unit -> bool) (k : cont) (i : nat) (s : jsstring) : bool :=
  match s with
  | c :: s' => (p c && star p k (S i) s') || k i s
  | [] => k i s
  end.

Fixpoint matcher (r : regex) (k : cont) (i : nat) (s : jsstring) : bool :=
  match r with
  | Empty => k i s
  | Bol => Nat.eqb i 0 && k i s
  | Eol => match s with [] => k i s | _ :: _ => false end
  | One a => match s with c :: s' => sat a c && k (S i) s' | [] => false end
  | Star a => star (sat a) k i s
  | Plus a =>
      match s with c :: s' => sat a c && star (sat a) k (S i) s' | [] => false end
  | Lookahead r' => matcher r' (fun _ _ => true) i s && k i s
  | Seq r1 r2 => matcher r1 (matcher r2 k) i s
  end.

(** [RegExp.prototype.test] for a pattern that is neither global nor sticky:
    try every start index from 0 to the length of the input. *)
Fixpoint search (r : regex) (i : nat) (s : jsstring) : bool :=
  matcher r (fun _ _ => true) i s
  || match s with _ :: s' => search r (S i) s' | [] => false end.

Definition test (r : regex) (s : jsstring) : bool := search r 0 s.

(** The regular-expression literals of the sign-up page. *)

(** [/^[^\s@]+@[^\s@]+\.[^\s@]+$/] *)
Definition emailRegex : regex :=
  Seq Bol
 (Seq (Plus (NCls [CSpace; CChar (cu "@")]))
 (Seq (One (Chr (cu "@")))
 (Seq (Plus (NCls [CSpace; CChar (cu "@")]))
 (Seq (One (Chr (cu ".")))
 (Seq (Plus (NCls [CSpace; CChar (cu "@")]))
      Eol))))).

(** [/(?=.*[a-z])(?=.*[A-Z])(?=.*\d)/] *)
Definition passwordRegex : regex :=
  Seq (Lookahead (Seq (Star Dot) (One (Cls [CRange (cu "a") (cu "z")]))))
 (Seq (Lookahead (Seq (Star Dot) (One (Cls [CRange (cu "A") (cu "Z")]))))
      (Lookahead (Seq (Star Dot) (One Esc_d)))).

(** [/[a-z]/], [/[A-Z]/], [/\d/] and [/[^a-zA-Z\d]/] *)
Definition lowerRegex : regex := One (Cls [CRange (cu "a") (cu "z")]).
Definition upperRegex : regex := One (Cls [CRange (cu "A") (cu "Z")]).
Definition digitRegex : regex := One Esc_d.
Definition symbolRegex : regex :=
  One (NCls [CRange (cu "a") (cu "z"); CRange (cu "A") (cu "Z"); CDigit]).

(** ** Event handlers and React state

    An event handler runs against the state of the render it was created in
    (its closure) and produces an ordered trace of effects: state updates,
    which React queues and applies in order once the handler yields, and
    calls to the outside world.  The type is shared by the two pages; [K] is
    the type of field names, [FD] the form data and [E] the error mapping. *)

Inductive effect (K FD E : Type) : Type :=
  | PreventDefault                          (* e.preventDefault() *)
  | SetFormData (name : K) (value : jsstring)
      (* setFormData((prev) => ({ ...prev, [name]: value })) *)
  | SetErrors (newErrors : E)               (* setErrors(newErrors) *)
  | SetIsLoading (b : bool)                 (* setIsLoading(b) *)
  | AwaitTimeout (ms : N)
      (* await new Promise((resolve) => setTimeout(resolve, ms)) *)
  | AwaitAxiosPost (url : string) (body : FD)
      (* await axios.post(url, body) *)
  | ConsoleLog (v : FD)                     (* console.log(..., formData) *)
  | ConsoleLogResponse (response : jsstring)(* console.log(response) *)
  | ConsoleError (msg : string).            (* console.error(msg, e) *)

Arguments PreventDefault {K FD E}.
Arguments SetFormData {K FD E} name value.
Arguments SetErrors {K FD E} newErrors.
Arguments SetIsLoading {K FD E} b.
Arguments AwaitTimeout {K FD E} ms.
Arguments AwaitAxiosPost {K FD E} url body.
Arguments ConsoleLog {K FD E} v.
Arguments ConsoleLogResponse {K FD E} response.
Arguments ConsoleError {K FD E} msg.

Section Traces.
Context {K FD E : Type}.

(** A request to the authentication collaborator (the back end). *)
Definition is_network_call (e : effect K FD E) : bool :=
  match e with AwaitAxiosPost _ _ => true | _ => false end.

(** The points where an [async] handler suspends. *)
Definition is_suspension (e : effect K FD E) : bool :=
  match e with AwaitTimeout _ | AwaitAxiosPost _ _ => true | _ => false end.

Definition network_calls (t : list (effect K FD E)) : nat :=
  length (List.filter is_network_call t).

(** The part of a trace that runs inside the event handler, up to and
    including the first suspension, and the part that runs when the awaited
    promise settles. *)
Fixpoint before_suspension (t : list (effect K FD E)) : list (effect K FD E) :=
  match t with
  | [] => []
  | e :: t' => if is_suspension e then [e] else e :: before_suspension t'
  end.

Fixpoint after_suspension (t : list (effect K FD E)) : list (effect K FD E) :=
  match t with
  | [] => []
  | e :: t' => if is_suspension e then t' else after_suspension t'
  end.

End Traces.

(** ** The sign-up page *)

Module Key.
(** The [name] attributes of the four inputs of the form, which are also
    the keys of [FormData] and [FormErrors]. *)
Inductive t := username | email | password | confirmPassword.

Definition to_nat (k : t) : nat :=
  match k with username => 0 | email => 1 | password => 2 | confirmPassword => 3 end.

Definition of_nat (n : nat) : t :=
  match n with 0 => username | 1 => email | 2 => password | _ => confirmPassword end.

Lemma of_to_nat k : of_nat (to_nat k) = k.
Proof. now destruct k. Qed.
End Key.

#[global] Instance key_eq_dec : EqDecision Key.t.
Proof. solve_decision. Defined.

#[global] Instance key_countable : Countable Key.t :=
  inj_countable' Key.to_nat Key.of_nat Key.of_to_nat.

Module SignUp.

(** [interface FormData] *)
Record FormData := mkFormData {
  username : jsstring;
  email : jsstring;
  password : jsstring;
  confirmPassword : jsstring
}.

(** [interface FormErrors]: each key is optional; a JavaScript object
    used as a map from field name to message. *)
Abbreviation FormErrors := (gmap Key.t jsstring).

(** [formData[key]] *)
Definition get (key : Key.t) (fd : FormData) : jsstring :=
  match key with
  | Key.username => username fd
  | Key.email => email fd
  | Key.password => password fd
  | Key.confirmPassword => confirmPassword fd
  end.

(** [{ ...prev, [name]: value }] *)
Definition set (name : Key.t) (value : jsstring) (prev : FormData) : FormData :=
  match name with
  | Key.username => mkFormData value (email prev) (password prev) (confirmPassword prev)
  | Key.email => mkFormData (username prev) value (password prev) (confirmPassword prev)
  | Key.password => mkFormData (username prev) (email prev) value (confirmPassword prev)
  | Key.confirmPassword => mkFormData (username prev) (email prev) (password prev) value
  end.

(** [Object.keys(formData)]: the keys in insertion order. *)
Definition Object_keys (fd : FormData) : list Key.t :=
  [Key.username; Key.email; Key.password; Key.confirmPassword].

(** The component state held by [useState].  [showPassword] and
    [showConfirmPassword] only switch the input type and are left out. *)
Record State := mkState {
  formData : FormData;
  errors : FormErrors;
  isLoading : bool
}.

Abbreviation eff := (effect Key.t FormData FormErrors).

(** The state of a freshly mounted form. *)
Definition mounted : State :=
  mkState (mkFormData [] [] [] []) ∅ false.

Definition msg_username : jsstring := lit "Username must be at least 4 characters".
Definition msg_email : jsstring := lit "Please enter a valid email address".
Definition msg_password_length : jsstring := lit "Password must be at least 8 characters".
Definition msg_password_classes : jsstring :=
  lit "Password must contain uppercase, lowercase, and number".
Definition msg_confirm : jsstring := lit "Passwords do not match".

(** [validateField]: [st] is the state captured by the closure; the
    function copies [errors], sets or deletes the key of the field named
    [name], and queues the copy with [setErrors]. *)
Definition validateField (st : State) (name : Key.t) (value : jsstring) : list eff :=
  let newErrors := errors st in
  let newErrors :=
    match name with
    | Key.username =>
        if falsy value || (length value <? 4)
        then <[Key.username := msg_username]> newErrors
        else delete Key.username newErrors
    | Key.email =>
        if falsy value || negb (test emailRegex value)
        then <[Key.email := msg_email]> newErrors
        else delete Key.email newErrors
    | Key.password =>
        if falsy value || (length value <? 8)
        then <[Key.password := msg_password_length]> newErrors
        else if negb (test passwordRegex value)
        then <[Key.password := msg_password_classes]> newErrors
        else delete Key.password newErrors
    | Key.confirmPassword =>
        if negb (strict_eq value (password (formData st)))
        then <[Key.confirmPassword := msg_confirm]> newErrors
        else delete Key.confirmPassword newErrors
    end in
  [SetErrors newErrors].

(** [handleInputChange]: none of the four inputs is a checkbox, so
    [fieldValue] is [e.target.value]. *)
Definition handleInputChange (st : State) (name : Key.t) (value : jsstring) : list eff :=
  SetFormData name value :: validateField st name value.

(** [getPasswordStrength] *)
Definition getPasswordStrength (password : jsstring) : nat :=
  let strength := 0 in
  let strength := if 8 <=? length password then S strength else strength in
  let strength := if test lowerRegex password then S strength else strength in
  let strength := if test upperRegex password then S strength else strength in
  let strength := if test digitRegex password then S strength else strength in
  let strength := if test symbolRegex password then S strength else strength in
  strength.

(** [getPasswordStrengthText] *)
Definition getPasswordStrengthText (strength : nat) : string :=
  match strength with
  | 0 | 1 => "Weak"
  | 2 | 3 => "Medium"
  | 4 | 5 => "Strong"
  | _ => "Weak"
  end.

(** [handleSubmit] *)
Definition handleSubmit (st : State) : list eff :=
  PreventDefault
  :: flat_map (fun key => validateField st key (get key (formData st)))
              (Object_keys (formData st))
  ++ (if Nat.eqb (size (errors st)) 0
      then [SetIsLoading true; AwaitTimeout 2000; SetIsLoading false;
            ConsoleLog (formData st)]
      else []).

(** React applies the queued updates in order. *)
Definition apply_effect (st : State) (e : eff) : State :=
  match e with
  | SetFormData name value => mkState (set name value (formData st)) (errors st) (isLoading st)
  | SetErrors newErrors => mkState (formData st) newErrors (isLoading st)
  | SetIsLoading b => mkState (formData st) (errors st) b
  | _ => st
  end.

Definition commit (st : State) (t : list eff) : State :=
  fold_left apply_effect t st.

(** The events of the form.  [Submit] is the part of [handleSubmit] that
    runs inside the event handler.  [Settle closure] is the continuation of
    a [handleSubmit] that was started in the render [closure], run when its
    awaited promise resolves; other events may come in between. *)
Inductive event :=
  | Change (name : Key.t) (value : jsstring)
  | Submit
  | Settle (closure : State).

Definition step (st : State) (ev : event) : State :=
  match ev with
  | Change name value => commit st (handleInputChange st name value)
  | Submit => commit st (before_suspension (handleSubmit st))
  | Settle closure => commit st (after_suspension (handleSubmit closure))
  end.

Definition run (st : State) (evs : list event) : State :=
  fold_left step evs st.

Inductive reachable : State -> Prop :=
  | reach_mounted : reachable mounted
  | reach_step st ev : reachable st -> reachable (step st ev).

End SignUp.

(** ** The sign-in page *)

Module SignIn.

Inductive Key := Kemail | Kpassword.

(** [interface FormData] *)
Record FormData := mkFormData {
  email : jsstring;
  password : jsstring
}.

Definition set (name : Key) (value : jsstring) (prev : FormData) : FormData :=
  match name with
  | Kemail => mkFormData value (password prev)
  | Kpassword => mkFormData (email prev) value
  end.

Record State := mkState {
  formData : FormData;
  isLoading : bool
}.

(** The page keeps no error mapping. *)
Abbreviation eff := (effect Key FormData Empty_set).

(** How the awaited [axios.post] settles; decided by the back end. *)
Inductive outcome :=
  | Resolved (response : jsstring)
  | Rejected.

Definition login_url : string := "http://0.0.0.0:8000/api/users/login".

(** [handleInputChange] *)
Definition handleInputChange (st : State) (name : Key) (value : jsstring) : list eff :=
  [SetFormData name value].

(** [handleSubmit]: the [finally] block runs on both outcomes. *)
Definition handleSubmit (st : State) (o : outcome) : list eff :=
  PreventDefault
  :: (if strict_eq (trim (email (formData st))) []
         || strict_eq (trim (password (formData st))) []
      then []
      else
        [SetIsLoading true; AwaitAxiosPost login_url (formData st)]
        ++ match o with
           | Resolved response => [ConsoleLogResponse response]
           | Rejected => [ConsoleError "error occured: "]
           end
        ++ [SetIsLoading false]).

Definition apply_effect (st : State) (e : eff) : State :=
  match e with
  | SetFormData name value => mkState (set name value (formData st)) (isLoading st)
  | SetIsLoading b => mkState (formData st) b
  | _ => st
  end.

Definition commit (st : State) (t : list eff) : State :=
  fold_left apply_effect t st.

(** Whether a trace touches [isLoading]. *)
Definition sets_isLoading (e : eff) : bool :=
  match e with SetIsLoading _ => true | _ => false end.

End SignIn.

(** ** Vocabulary of the properties *)

(** A non-empty run of characters that are neither white space nor [@]:
    what [[^\s@]+] matches. *)
Definition is_token (l : jsstring) : Prop :=
  l <> [] /\ Forall (fun c => isSpace c = false /\ c <> cu "@") l.

(** [local@domain.tld] *)
Definition email_shape (v : jsstring) : Prop :=
  exists local domain tld,
    v = local ++ cu "@" :: domain ++ cu "." :: tld
    /\ is_token local /\ is_token domain /\ is_token tld.

Definition isLower (c : code_unit) : bool := ((97 <=? c) && (c <=? 122))%N.
Definition isUpper (c : code_unit) : bool := ((65 <=? c) && (c <=? 90))%N.

(** [(?=.*x)] at some position: a character with [p] occurs before the next
    line terminator. *)
Definition on_first_line (p : code_unit -> bool) (s : jsstring) : Prop :=
  exists pre c rest,
    s = pre ++ c :: rest
    /\ forallb (fun d => negb (isLineTerminator d)) pre = true /\ p c = true.

Module SignUpSpec.
Import SignUp.

(** The entry that [validateField] leaves under [name] when it validates
    [value] in a render whose form data is [fd]: [None] when the value passes
    the rule of the field, the message otherwise. *)
Definition fieldError (fd : FormData) (name : Key.t) (value : jsstring)
  : option jsstring :=
  let st := mkState fd ∅ false in
  errors (commit st (validateField st name value)) !! name.

(** The current value of field [k] fails the rule of the field. *)
Definition invalid (fd : FormData) (k : Key.t) : Prop :=
  is_Some (fieldError fd k (get k fd)).

(** The states named by the submission life cycle, as far as the page has
    them: [isLoading] distinguishes idle from submitting. *)
Definition idle (st : State) : Prop := isLoading st = false.
Definition submitting (st : State) : Prop := isLoading st = true.

(** The five criteria of the strength meter. *)
Definition isSymbol (c : code_unit) : bool :=
  negb (isLower c || isUpper c || isDigit c).

Definition criteria (pw : jsstring) : list bool :=
  [ 8 <=? length pw;
    existsb isLower pw;
    existsb isUpper pw;
    existsb isDigit pw;
    existsb isSymbol pw ].

Definition satisfied (pw : jsstring) : nat :=
  length (List.filter (fun b => b) (criteria pw)).

(** The example inputs of the specification. *)
Definition joedoe : FormData :=
  mkFormData (lit "joedoe") (lit "bad-email") (lit "Abcdef12") (lit "Abcdef12").

Definition valid_form : FormData :=
  mkFormData (lit "joedoe") (lit "joe@x.com") (lit "Abcdef12") (lit "Abcdef12").

(** Filling in the form field by field, top to bottom. *)
Definition fill (fd : FormData) : list event :=
  List.map (fun k => Change k (get k fd)) (Object_keys fd).

End SignUpSpec.

(** ** What the sign-up page renders from its state *)

Module SignUpView.
Import SignUp.

(** [getPasswordStrengthColor] *)
Definition getPasswordStrengthColor (strength : nat) : string :=
  match strength with
  | 0 | 1 => "bg-red-500"
  | 2 | 3 => "bg-yellow-500"
  | 4 | 5 => "bg-green-500"
  | _ => "bg-gray-300"
  end.

(** [const passwordStrength = getPasswordStrength(formData.password)] *)
Definition passwordStrength (st : State) : nat :=
  getPasswordStrength (password (formData st)).

(** The class of the strength label:
    [passwordStrength <= 1 ? "text-red-500"
     : passwordStrength <= 3 ? "text-yellow-500" : "text-green-500"]. *)
Definition strengthTextClass (strength : nat) : string :=
  if strength <=? 1 then "text-red-500"
  else if strength <=? 3 then "text-yellow-500"
  else "text-green-500".

(** The five segments of the meter:
    [[1, 2, 3, 4, 5].map((level) => level <= passwordStrength
       ? getPasswordStrengthColor(passwordStrength) : "bg-gray-200")]. *)
Definition strengthBar (strength : nat) : list string :=
  List.map (fun level => if level <=? strength
                         then getPasswordStrengthColor strength
                         else "bg-gray-200")
           [1; 2; 3; 4; 5].

(** [formData.password && (...)]: the meter is rendered for a non-empty
    password only. *)
Definition meterShown (st : State) : bool :=
  negb (falsy (password (formData st))).

(** [disabled={isLoading || Object.keys(errors).length > 0}] on the submit
    button. *)
Definition submitDisabled (st : State) : bool :=
  isLoading st || (0 <? size (errors st)).

(** [errors.username] used as a condition: an absent key is [undefined],
    a present one is truthy unless the message is empty. *)
Definition truthy_entry (e : option jsstring) : bool :=
  match e with
  | Some m => negb (falsy m)
  | None => false
  end.

Inductive icon := IconX | IconCheck.

(** [errors.username ? <X/> : formData.username && !errors.username
      ? <Check/> : null] *)
Definition usernameIcon (st : State) : option icon :=
  if truthy_entry (errors st !! Key.username) then Some IconX
  else if negb (falsy (username (formData st)))
          && negb (truthy_entry (errors st !! Key.username))
       then Some IconCheck
       else None.

(** [errors.email ? <X/> : formData.email && !errors.email
      ? <Check/> : null] *)
Definition emailIcon (st : State) : option icon :=
  if truthy_entry (errors st !! Key.email) then Some IconX
  else if negb (falsy (email (formData st)))
          && negb (truthy_entry (errors st !! Key.email))
       then Some IconCheck
       else None.

(** The messages that [validateField] can store under each key. *)
Definition messages_of (k : Key.t) : list jsstring :=
  match k with
  | Key.username => [msg_username]
  | Key.email => [msg_email]
  | Key.password => [msg_password_length; msg_password_classes]
  | Key.confirmPassword => [msg_confirm]
  end.


(** The value that the last change event for field [k] in [evs] carries,
    [init] when there is none. *)
Definition last_change (k : Key.t) (evs : list event) (init : jsstring) : jsstring :=
  fold_left (fun acc ev =>
               match ev with
               | Change name value => if decide (name = k) then value else acc
               | _ => acc
               end) evs init.

End SignUpView.

(** ** The prediction cards of the landing page *)

Module Predictions.

(** [Array.from(Array(n).keys())] for an integer [n]: the indices
    [0 .. n-1]; [Array(n)] throws a RangeError unless [0 <= n < 2^32].
    [None] stands for the exception. *)
Definition Array_keys (n : Z) : option (list nat) :=
  if ((0 <=? n) && (n <? 2 ^ 32))%Z then Some (seq 0 (Z.to_nat n)) else None.

Definition bar_red : string := "w-2 h-4 bg-red-600 mr-0.5 rounded-sm".
Definition bar_grey : string := "w-2 h-4 bg-gray-200 mr-0.5 rounded-sm".

(** The confidence bars of [PredictionCard], as the list of the classes of
    the rendered segments, for a whole-number [confidence]. *)
Definition confidenceBars (confidence : Z) : option (list string) :=
  match Array_keys confidence with
  | None => None
  | Some reds =>
      match Array_keys (5 - confidence) with
      | None => None
      | Some greys =>
          Some (List.map (fun _ => bar_red) reds
                ++ List.map (fun _ => bar_grey) greys)
      end
  end.

End Predictions.

(** * Properties *)

(** ** Traces *)

Section TraceFacts.
Context {K FD E : Type}.

Lemma before_after_suspension (t : list (effect K FD E)) :
  before_suspension t ++ after_suspension t = t.
Proof.
  induction t as [|e t IH]; simpl; [reflexivity|].
  destruct (is_suspension e); simpl; [reflexivity|]. now rewrite IH.
Qed.
End TraceFacts.


(** ** The matcher *)

Section Matcher.
Implicit Types (p : code_unit -> bool) (k : cont) (s : jsstring).

Lemma star_spec p k i s :
  star p k i s = true <->
  exists pre rest, s = pre ++ rest /\ forallb p pre = true
                   /\ k (i + length pre) rest = true.
Proof.
  revert i; induction s as [|c s IH]; intros i; simpl.
  - split.
    + intros Hk. exists [], []. rewrite Nat.add_0_r. auto.
    + intros (pre & rest & Heq & _ & Hk).
      symmetry in Heq. apply app_eq_nil in Heq as [-> ->].
      simpl in Hk. now rewrite Nat.add_0_r in Hk.
  - rewrite orb_true_iff, andb_true_iff, IH. split.
    + intros [[Hc (pre & rest & -> & Hall & Hk)] | Hk].
      * exists (c :: pre), rest. simpl. rewrite Hc, Hall.
        rewrite Nat.add_succ_r. auto.
      * exists [], (c :: s). rewrite Nat.add_0_r. auto.
    + intros (pre & rest & Heq & Hall & Hk). destruct pre as [|c' pre].
      * right. simpl in *. subst rest. now rewrite Nat.add_0_r in Hk.
      * left. simpl in *. injection Heq as <- ->.
        apply andb_true_iff in Hall as [Hc Hall]. split; [assumption|].
        exists pre, rest. rewrite Nat.add_succ_r in Hk. auto.
Qed.

Lemma one_spec a k i s :
  matcher (One a) k i s = true <->
  exists c rest, s = c :: rest /\ sat a c = true /\ k (S i) rest = true.
Proof.
  simpl. destruct s as [|c s].
  - split; [discriminate | now intros (? & ? & ? & _)].
  - rewrite andb_true_iff. split.
    + intros [? ?]. eauto.
    + intros (? & ? & [= <- <-] & ? & ?). auto.
Qed.

Lemma plus_spec a k i s :
  matcher (Plus a) k i s = true <->
  exists pre rest, s = pre ++ rest /\ pre <> [] /\ forallb (sat a) pre = true
                   /\ k (i + length pre) rest = true.
Proof.
  simpl. destruct s as [|c s].
  - split; [discriminate|]. intros (pre & rest & Heq & Hne & _).
    symmetry in Heq. apply app_eq_nil in Heq as [-> _]. now destruct Hne.
  - rewrite andb_true_iff, star_spec. split.
    + intros [Hc (pre & rest & -> & Hall & Hk)].
      exists (c :: pre), rest. simpl. rewrite Hc, Hall, Nat.add_succ_r.
      repeat split; auto; discriminate.
    + intros (pre & rest & Heq & Hne & Hall & Hk).
      destruct pre as [|c' pre]; [now destruct Hne|].
      simpl in *. injection Heq as <- ->.
      apply andb_true_iff in Hall as [Hc Hall]. split; [assumption|].
      exists pre, rest. rewrite Nat.add_succ_r in Hk. auto.
Qed.

(** A pattern that starts with [^] only matches at index 0. *)
Lemma search_bol r i s : search (Seq Bol r) (S i) s = false.
Proof.
  revert i; induction s as [|c s IH]; intros i; simpl; [reflexivity|].
  apply IH.
Qed.

Lemma test_bol r s :
  test (Seq Bol r) s = matcher r (fun _ _ => true) 0 s.
Proof.
  unfold test. destruct s as [|c s]; simpl.
  - now rewrite orb_false_r.
  - now rewrite search_bol, orb_false_r.
Qed.

(** A one-atom pattern tests whether some character satisfies the atom. *)
Lemma search_one a i s : search (One a) i s = existsb (sat a) s.
Proof.
  revert i; induction s as [|c s IH]; intros i; simpl; [reflexivity|].
  now rewrite andb_true_r, IH.
Qed.

Lemma test_one a s : test (One a) s = existsb (sat a) s.
Proof. apply search_one. Qed.

(** [search] succeeds when the matcher succeeds on some suffix. *)
Lemma search_spec r i s :
  search r i s = true <->
  exists pre rest, s = pre ++ rest
                   /\ matcher r (fun _ _ => true) (i + length pre) rest = true.
Proof.
  revert i; induction s as [|c s IH]; intros i; simpl.
  - rewrite orb_false_r. split.
    + intros H. exists [], []. now rewrite Nat.add_0_r.
    + intros (pre & rest & Heq & H). symmetry in Heq.
      apply app_eq_nil in Heq as [-> ->]. now rewrite Nat.add_0_r in H.
  - rewrite orb_true_iff, IH. split.
    + intros [H | (pre & rest & -> & H)].
      * exists [], (c :: s). now rewrite Nat.add_0_r.
      * exists (c :: pre), rest. simpl. now rewrite Nat.add_succ_r.
    + intros (pre & rest & Heq & H). destruct pre as [|c' pre].
      * left. simpl in *. subst rest. now rewrite Nat.add_0_r in H.
      * right. simpl in *. injection Heq as <- ->.
        exists pre, rest. now rewrite Nat.add_succ_r in H.
Qed.
End Matcher.

(** ** The e-mail pattern *)

Lemma matcher_seq r1 r2 k : matcher (Seq r1 r2) k = matcher r1 (matcher r2 k).
Proof. reflexivity. Qed.

Lemma matcher_eol k i s :
  matcher Eol k i s = true <-> s = [] /\ k i [] = true.
Proof.
  destruct s; simpl; split; try tauto; try discriminate.
  now intros [? _].
Qed.

Lemma forallb_token l :
  forallb (sat (NCls [CSpace; CChar (cu "@")])) l = true <->
  Forall (fun c => isSpace c = false /\ c <> cu "@") l.
Proof.
  rewrite forallb_forall, List.Forall_forall.
  assert (Hc : forall c, sat (NCls [CSpace; CChar (cu "@")]) c = true
                         <-> isSpace c = false /\ c <> cu "@").
  { intros c. simpl. rewrite orb_false_r, negb_true_iff, orb_false_iff.
    now rewrite N.eqb_neq. }
  split; intros H c Hin; apply Hc, H, Hin.
Qed.

Lemma test_emailRegex v : test emailRegex v = true <-> email_shape v.
Proof.
  unfold emailRegex, email_shape, is_token. rewrite test_bol.
  rewrite !matcher_seq. split.
  - intros H.
    apply plus_spec in H as (local & r1 & -> & Hl & Hlt & H).
    apply one_spec in H as (c & r2 & -> & Hc & H).
    apply plus_spec in H as (domain & r3 & -> & Hd & Hdt & H).
    apply one_spec in H as (c' & r4 & -> & Hc' & H).
    apply plus_spec in H as (tld & r5 & -> & Ht & Htt & H).
    apply matcher_eol in H as [-> _].
    simpl in Hc, Hc'. apply N.eqb_eq in Hc, Hc'. subst c c'.
    exists local, domain, tld. rewrite app_nil_r.
    rewrite forallb_token in Hlt, Hdt, Htt. auto.
  - intros (local & domain & tld & -> & [Hl Hlt] & [Hd Hdt] & [Ht Htt]).
    rewrite <- forallb_token in Hlt, Hdt, Htt.
    apply plus_spec. exists local, (cu "@" :: domain ++ cu "." :: tld).
    repeat split; [assumption..|].
    apply one_spec. exists (cu "@"), (domain ++ cu "." :: tld).
    repeat split.
    apply plus_spec. exists domain, (cu "." :: tld).
    repeat split; [assumption..|].
    apply one_spec. exists (cu "."), tld.
    repeat split.
    apply plus_spec. exists tld, []. rewrite app_nil_r.
    repeat split; assumption.
Qed.

(** ** The password pattern *)

Lemma lookahead_dotstar a k i s :
  matcher (Lookahead (Seq (Star Dot) (One a))) k i s = true <->
  on_first_line (sat a) s /\ k i s = true.
Proof.
  change (matcher (Lookahead (Seq (Star Dot) (One a))) k i s)
    with (star (sat Dot) (matcher (One a) (fun _ _ => true)) i s && k i s).
  rewrite andb_true_iff, star_spec. unfold on_first_line.
  split; intros [H Hk]; (split; [|assumption]).
  - destruct H as (pre & rest & -> & Hall & H).
    apply one_spec in H as (c & rest' & -> & Hc & _). eauto 6.
  - destruct H as (pre & c & rest & -> & Hall & Hc).
    exists pre, (c :: rest). repeat split; [assumption|].
    apply one_spec. eauto.
Qed.

Lemma sat_lower c : sat (Cls [CRange (cu "a") (cu "z")]) c = isLower c.
Proof. simpl. apply orb_false_r. Qed.

Lemma sat_upper c : sat (Cls [CRange (cu "A") (cu "Z")]) c = isUpper c.
Proof. simpl. apply orb_false_r. Qed.

Lemma on_first_line_ext p q s :
  (forall c, p c = q c) -> on_first_line p s -> on_first_line q s.
Proof.
  intros E (pre & c & rest & -> & Hall & Hc). exists pre, c, rest.
  rewrite <- E. auto.
Qed.

(** What the password pattern tests: from some start index, a lowercase
    letter, an uppercase letter and a digit all occur before the next line
    terminator. *)
Lemma test_passwordRegex s :
  test passwordRegex s = true <->
  exists pre rest,
    s = pre ++ rest /\ on_first_line isLower rest
    /\ on_first_line isUpper rest /\ on_first_line isDigit rest.
Proof.
  unfold test. rewrite search_spec.
  assert (H : forall i rest,
    matcher passwordRegex (fun _ _ => true) i rest = true <->
    on_first_line isLower rest /\ on_first_line isUpper rest
    /\ on_first_line isDigit rest).
  { intros i rest. unfold passwordRegex. rewrite !matcher_seq.
    rewrite !lookahead_dotstar. split.
    - intros (Hl & Hu & Hd & _). repeat split.
      + revert Hl. apply on_first_line_ext, sat_lower.
      + revert Hu. apply on_first_line_ext, sat_upper.
      + exact Hd.
    - intros (Hl & Hu & Hd). repeat split.
      + revert Hl. apply on_first_line_ext. intros; symmetry; apply sat_lower.
      + revert Hu. apply on_first_line_ext. intros; symmetry; apply sat_upper.
      + exact Hd. }
  split; intros (pre & rest & -> & Hm); exists pre, rest;
    (split; [reflexivity|]); now apply (H (0 + length pre)).
Qed.

Lemma on_first_line_exists p s : on_first_line p s -> existsb p s = true.
Proof.
  intros (pre & c & rest & -> & _ & Hc).
  rewrite existsb_app. simpl. rewrite Hc. now rewrite orb_true_r.
Qed.

Lemma exists_on_first_line p s :
  forallb (fun d => negb (isLineTerminator d)) s = true ->
  existsb p s = true -> on_first_line p s.
Proof.
  intros Hall Hex. apply existsb_exists in Hex as (c & Hin & Hc).
  apply in_split in Hin as (pre & rest & ->).
  rewrite forallb_app in Hall. apply andb_true_iff in Hall as [Hall _].
  exists pre, c, rest. auto.
Qed.

(** The pattern never accepts a value that lacks one of the three kinds. *)
Lemma test_passwordRegex_sound s :
  test passwordRegex s = true ->
  existsb isLower s = true /\ existsb isUpper s = true
  /\ existsb isDigit s = true.
Proof.
  intros H. apply test_passwordRegex in H as (pre & rest & -> & Hl & Hu & Hd).
  rewrite !existsb_app.
  rewrite (on_first_line_exists _ _ Hl), (on_first_line_exists _ _ Hu),
          (on_first_line_exists _ _ Hd).
  now rewrite !orb_true_r.
Qed.

(** On a value without line terminators the pattern is the conjunction of
    the three containment tests. *)
Lemma test_passwordRegex_one_line s :
  forallb (fun d => negb (isLineTerminator d)) s = true ->
  test passwordRegex s
  = existsb isLower s && existsb isUpper s && existsb isDigit s.
Proof.
  intros Hall. apply eq_true_iff_eq.
  rewrite !andb_true_iff. split.
  - intros H. apply test_passwordRegex_sound in H. tauto.
  - intros [[Hl Hu] Hd]. apply test_passwordRegex. exists [], s.
    split; [reflexivity|].
    repeat split; now apply exists_on_first_line.
Qed.

(** ** The field validator *)

Module SignUpProps.
Import SignUp SignUpSpec.

(** Unfold one call of [validateField] down to the map operation. *)
Ltac unfold_validate :=
  unfold fieldError, validateField, commit;
  cbn [fold_left apply_effect errors formData].

(** Read a key back from the map that [validateField] built. *)
Ltac read_key := now rewrite ?lookup_insert_eq, ?lookup_delete_eq.

(** Close a goal about a concrete form by running the handlers. *)
Ltac by_running := vm_compute; reflexivity.

Lemma falsy_length (v : jsstring) n : falsy v || (length v <? S n) = (length v <? S n).
Proof. now destruct v. Qed.

Lemma validateField_formData st name value :
  formData (commit st (validateField st name value)) = formData st.
Proof. reflexivity. Qed.

Lemma validateField_isLoading st name value :
  isLoading (commit st (validateField st name value)) = isLoading st.
Proof. reflexivity. Qed.

(** [validateField] inserts or removes exactly the key of the field it
    validates. *)
Lemma validateField_other st name value k :
  k <> name ->
  errors (commit st (validateField st name value)) !! k = errors st !! k.
Proof.
  intros Hk. unfold_validate.
  destruct name;
    repeat match goal with |- context [if ?b then _ else _] => destruct b end;
    first [ now rewrite lookup_insert_ne | now rewrite lookup_delete_ne ].
Qed.

(** The entry under the validated key depends on the value and on the
    rendered form data only, not on the rendered errors. *)
Lemma validateField_key st name value :
  errors (commit st (validateField st name value)) !! name
  = fieldError (formData st) name value.
Proof.
  unfold_validate.
  destruct name;
    repeat match goal with |- context [if ?b then _ else _] => destruct b end;
    read_key.
Qed.

Lemma fieldError_username fd v :
  fieldError fd Key.username v
  = if length v <? 4 then Some msg_username else None.
Proof.
  unfold_validate.
  rewrite falsy_length.
  destruct (length v <? 4); read_key.
Qed.

Lemma fieldError_email fd v :
  fieldError fd Key.email v
  = if test emailRegex v then None else Some msg_email.
Proof.
  unfold_validate.
  assert (Hf : falsy v || negb (test emailRegex v) = negb (test emailRegex v))
    by now destruct v.
  rewrite Hf.
  destruct (test emailRegex v); cbn [negb];
    read_key.
Qed.

Lemma fieldError_password fd v :
  fieldError fd Key.password v
  = if length v <? 8 then Some msg_password_length
    else if test passwordRegex v then None else Some msg_password_classes.
Proof.
  unfold_validate.
  rewrite falsy_length.
  destruct (length v <? 8); [now rewrite lookup_insert_eq|].
  destruct (test passwordRegex v); cbn [negb];
    read_key.
Qed.

Lemma fieldError_confirmPassword fd v :
  fieldError fd Key.confirmPassword v
  = if strict_eq v (password fd) then None else Some msg_confirm.
Proof.
  unfold_validate.
  destruct (strict_eq v (password fd)); cbn [negb];
    read_key.
Qed.

(** Only the rule of [confirmPassword] looks at another field. *)
Lemma fieldError_local fd fd' k v :
  k <> Key.confirmPassword -> fieldError fd k v = fieldError fd' k v.
Proof.
  intros Hk. destruct k; [ | | | now destruct Hk ].
  - now rewrite !fieldError_username.
  - now rewrite !fieldError_email.
  - now rewrite !fieldError_password.
Qed.

Lemma get_set_eq k v fd : get k (set k v fd) = v.
Proof. now destruct k. Qed.

Lemma get_set_ne k k' v fd : k <> k' -> get k (set k' v fd) = get k fd.
Proof. now destruct k, k'. Qed.

(** ** The events *)

Lemma step_change st name value :
  step st (Change name value)
  = mkState (set name value (formData st))
            (errors (commit st (validateField st name value)))
            (isLoading st).
Proof. reflexivity. Qed.

(** Inside [handleSubmit] every call of [validateField] starts from the
    [errors] of the same render, and the update queued last, the one for
    [confirmPassword], is the one that stays. *)
Lemma step_submit st :
  step st Submit
  = mkState (formData st)
            (errors (commit st (validateField st Key.confirmPassword
                                  (confirmPassword (formData st)))))
            (if Nat.eqb (size (errors st)) 0 then true else isLoading st).
Proof.
  unfold step, handleSubmit, Object_keys.
  destruct (Nat.eqb (size (errors st)) 0); reflexivity.
Qed.

Lemma step_settle st closure :
  step st (Settle closure)
  = mkState (formData st) (errors st)
            (if Nat.eqb (size (errors closure)) 0 then false else isLoading st).
Proof.
  unfold step, handleSubmit, Object_keys.
  destruct (Nat.eqb (size (errors closure)) 0); now destruct st.
Qed.

Lemma reachable_run st evs : reachable st -> reachable (run st evs).
Proof.
  revert st; induction evs as [|ev evs IH]; intros st H; [exact H|].
  apply IH. now constructor.
Qed.

Lemma map_size_0 (e : FormErrors) : e = ∅ -> Nat.eqb (size e) 0 = true.
Proof. intros ->. reflexivity. Qed.

(** ** The strength meter *)

Lemma existsb_pointwise (p q : code_unit -> bool) l :
  (forall c, p c = q c) -> existsb p l = existsb q l.
Proof. intros E. induction l as [|c l IH]; simpl; [reflexivity|]. now rewrite E, IH. Qed.

Lemma test_lowerRegex pw : test lowerRegex pw = existsb isLower pw.
Proof. unfold lowerRegex. rewrite test_one. apply existsb_pointwise, sat_lower. Qed.

Lemma test_upperRegex pw : test upperRegex pw = existsb isUpper pw.
Proof. unfold upperRegex. rewrite test_one. apply existsb_pointwise, sat_upper. Qed.

Lemma test_digitRegex pw : test digitRegex pw = existsb isDigit pw.
Proof. unfold digitRegex. now rewrite test_one. Qed.

Lemma test_symbolRegex pw : test symbolRegex pw = existsb isSymbol pw.
Proof.
  unfold symbolRegex. rewrite test_one. apply existsb_pointwise.
  intros c. unfold isSymbol. simpl. now rewrite orb_false_r, orb_assoc.
Qed.

(** C5, as the page computes it: every one of the three examples has eight
    characters and so earns the point for length as well:
    score("abcdefgh") = 2, score("Abcdefg1") = 4, score("Abcdef1!") = 5. *)
Theorem getPasswordStrength_examples :
  getPasswordStrength (lit "abcdefgh") = 2
  /\ getPasswordStrength (lit "Abcdefg1") = 4
  /\ getPasswordStrength (lit "Abcdef1!") = 5.
Proof. repeat split; by_running. Qed.

(** C5 fails as stated: "abcdefgh" does not score 1 and "Abcdefg1" does not
    score 3. *)
Lemma getPasswordStrength_examples_off_by_length :
  getPasswordStrength (lit "abcdefgh") <> 1
  /\ getPasswordStrength (lit "Abcdefg1") <> 3.
Proof. split; vm_compute; discriminate. Qed.

(** C6: for every password the score is the number of satisfied criteria
    among: length at least 8, contains a lowercase letter, an uppercase
    letter, a digit, a character that is none of these; it lies between 0
    and 5; "AAAAAAAA" scores 2 and "aA1!aaaa" scores 5. *)
Theorem getPasswordStrength_counts_criteria :
  forall pw : jsstring,
    getPasswordStrength pw = satisfied pw
    /\ 0 <= getPasswordStrength pw <= 5
    /\ getPasswordStrength (lit "AAAAAAAA") = 2
    /\ getPasswordStrength (lit "aA1!aaaa") = 5.
Proof.
  intros pw.
  assert (Hs : getPasswordStrength pw = satisfied pw).
  { unfold getPasswordStrength, satisfied, criteria.
    rewrite test_lowerRegex, test_upperRegex, test_digitRegex, test_symbolRegex.
    destruct (8 <=? length pw), (existsb isLower pw), (existsb isUpper pw),
      (existsb isDigit pw), (existsb isSymbol pw); reflexivity. }
  split; [exact Hs|]. split.
  - rewrite Hs. unfold satisfied, criteria.
    destruct (8 <=? length pw), (existsb isLower pw), (existsb isUpper pw),
      (existsb isDigit pw), (existsb isSymbol pw); simpl; lia.
  - split; by_running.
Qed.

(** ** The user name *)

(** C4, as the page has it: validating the user name leaves the message
    "Username must be at least 4 characters" under [username] exactly when
    the length of the value as typed, not trimmed, is less than 4, and removes
    the key otherwise. *)
Theorem validate_username_length :
  forall (st : State) (v : jsstring),
    errors (commit st (validateField st Key.username v)) !! Key.username
    = if length v <? 4 then Some msg_username else None.
Proof. intros st v. now rewrite validateField_key, fieldError_username. Qed.

(** C4 fails as stated: three spaces and a letter trim to one character, yet
    the value passes. *)
Lemma validate_username_untrimmed :
  length (trim (lit "   a")) < 4
  /\ errors (commit mounted (validateField mounted Key.username (lit "   a")))
       !! Key.username = None.
Proof. split; [vm_compute; lia | vm_compute; reflexivity]. Qed.

(** ** The e-mail address *)

(** C9: validating the e-mail address removes the [email] key exactly when
    the value reads local@domain.tld, each part a non-empty run of characters
    other than white space and [@], and leaves "Please enter a valid email
    address" otherwise; entering joedoe / bad-email / Abcdef12 / Abcdef12
    leaves the e-mail error and no other. *)
Theorem validate_email_shape :
  forall (st : State) (v : jsstring),
    (errors (commit st (validateField st Key.email v)) !! Key.email = None
       <-> email_shape v)
    /\ (errors (commit st (validateField st Key.email v)) !! Key.email
          = Some msg_email <-> ~ email_shape v)
    /\ formData (run mounted (fill joedoe)) = joedoe
    /\ errors (run mounted (fill joedoe)) = {[ Key.email := msg_email ]}
    /\ fieldError joedoe Key.username (username joedoe) = None
    /\ fieldError joedoe Key.email (email joedoe) = Some msg_email
    /\ fieldError joedoe Key.password (password joedoe) = None
    /\ fieldError joedoe Key.confirmPassword (confirmPassword joedoe) = None.
Proof.
  intros st v. rewrite validateField_key, fieldError_email.
  rewrite <- test_emailRegex.
  split; [|split].
  - destruct (test emailRegex v); split; congruence.
  - destruct (test emailRegex v); split; congruence.
  - repeat split; by_running.
Qed.

(** ** The password *)

(** For a value without line terminators the password rule is: too short
    below eight characters; otherwise all three of a lowercase letter, an
    uppercase letter and a digit must occur, in any order. *)
Lemma validate_password_one_line st v :
  forallb (fun d => negb (isLineTerminator d)) v = true ->
  errors (commit st (validateField st Key.password v)) !! Key.password
  = if length v <? 8 then Some msg_password_length
    else if existsb isLower v && existsb isUpper v && existsb isDigit v
         then None else Some msg_password_classes.
Proof.
  intros Hv. rewrite validateField_key, fieldError_password.
  now rewrite test_passwordRegex_one_line.
Qed.

(** C8 at a value that holds a line separator (U+2028): the value has ten
    characters and contains a lowercase letter, an uppercase letter and a
    digit, yet validation reports "Password must contain uppercase,
    lowercase, and number", while the strength meter of the same page counts
    all five criteria as satisfied. *)
Theorem validate_password_line_separator :
  let v := lit "abcdefg" ++ [8232%N] ++ lit "A1" in
  length v = 10
  /\ existsb isLower v = true /\ existsb isUpper v = true
  /\ existsb isDigit v = true
  /\ errors (commit mounted (validateField mounted Key.password v))
       !! Key.password = Some msg_password_classes
  /\ getPasswordStrength v = 5.
Proof. repeat split; by_running. Qed.

(** ** Cross-field validation *)

(** C2, as the page has it: a change of the password validates the
    password and nothing else: the [password] entry of the errors becomes
    the verdict on the new value, and every other entry, the one of
    [confirmPassword] included, stays as it was.  The [confirmPassword] entry
    is recomputed, against the password of the current render, by a change of
    [confirmPassword] itself and by a submit, and by no other event. *)
Theorem password_change_keeps_confirm_entry :
  forall st : State,
    (forall (p : jsstring) (k : Key.t),
        errors (step st (Change Key.password p)) !! k
        = if decide (k = Key.password)
          then (if length p <? 8 then Some msg_password_length
                else if test passwordRegex p then None
                else Some msg_password_classes)
          else errors st !! k)
    /\ (forall ev : event,
           errors (step st ev) !! Key.confirmPassword
           = match ev with
             | Change Key.confirmPassword v =>
                 if strict_eq v (password (formData st))
                 then None else Some msg_confirm
             | Submit =>
                 if strict_eq (confirmPassword (formData st))
                              (password (formData st))
                 then None else Some msg_confirm
             | _ => errors st !! Key.confirmPassword
             end).
Proof.
  intros st. split.
  - intros p k. rewrite step_change. cbn [errors].
    destruct (decide (k = Key.password)) as [->|Hne].
    + now rewrite validateField_key, fieldError_password.
    + now rewrite validateField_other.
  - intros [name v| |closure].
    + rewrite step_change. cbn [errors].
      destruct name;
        first [ now rewrite validateField_other by discriminate
              | now rewrite validateField_key, fieldError_confirmPassword ].
    + rewrite step_submit. cbn [errors].
      now rewrite validateField_key, fieldError_confirmPassword.
    + now rewrite step_settle.
Qed.

(** C2 fails as stated: after password and confirmation were entered and
    matched, changing the password to a different value leaves no
    [confirmPassword] error. *)
Lemma password_change_not_revalidated :
  let st := run mounted [Change Key.password (lit "Abcdef12");
                         Change Key.confirmPassword (lit "Abcdef12")] in
  let st' := step st (Change Key.password (lit "Abcdef123")) in
  confirmPassword (formData st) = password (formData st)
  /\ errors st !! Key.confirmPassword = None
  /\ confirmPassword (formData st') <> password (formData st')
  /\ errors st' !! Key.confirmPassword = None.
Proof.
  repeat split; try by_running. vm_compute. discriminate.
Qed.

(** ** The errors invariant *)






(** ** Submission *)

(** C1 at the freshly mounted form: the user name, the e-mail address and
    the password are all invalid, the submit handler queues the four
    validations, and still it calls [setIsLoading(true)]: the form is
    submitting, with no error recorded. *)
Theorem submit_mounted_form :
  invalid (formData mounted) Key.username
  /\ invalid (formData mounted) Key.email
  /\ invalid (formData mounted) Key.password
  /\ In (SetIsLoading true) (before_suspension (handleSubmit mounted))
  /\ submitting (step mounted Submit)
  /\ errors (step mounted Submit) = ∅.
Proof.
  repeat split; try (eexists; vm_compute; reflexivity);
    try by_running.
  vm_compute. tauto.
Qed.

(** With no error rendered, validating a valid value queues the empty
    error mapping again. *)
Lemma validateField_valid st k v :
  errors st = ∅ -> fieldError (formData st) k v = None ->
  validateField st k v = [SetErrors ∅].
Proof.
  intros He Hv. unfold fieldError in Hv. unfold validateField, commit in *.
  cbn [fold_left apply_effect errors formData] in Hv. rewrite He.
  destruct k;
    repeat match goal with |- context [if ?b then _ else _] => destruct b end;
    try (rewrite lookup_insert_eq in Hv; discriminate Hv);
    now rewrite delete_empty.
Qed.

(** C3, as the page has it: submitting a fully valid form, which takes the
    submit button to be enabled (the form is idle and no error is rendered),
    calls no authentication collaborator.  The whole trace of the handler is:
    [preventDefault], the four validations, each queueing the empty error
    mapping, [setIsLoading(true)], a placeholder delay of 2000 ms,
    [setIsLoading(false)] and a log of the form data.  The form goes idle,
    submitting, idle, with its data unchanged and its errors still empty. *)
Theorem submit_placeholder :
  forall st : State,
    (forall k : Key.t, fieldError (formData st) k (get k (formData st)) = None) ->
    SignUpView.submitDisabled st = false ->
    idle st
    /\ handleSubmit st
       = [PreventDefault; SetErrors ∅; SetErrors ∅; SetErrors ∅; SetErrors ∅;
          SetIsLoading true; AwaitTimeout 2000; SetIsLoading false;
          ConsoleLog (formData st)]
    /\ network_calls (handleSubmit st) = 0
    /\ submitting (step st Submit)
    /\ idle (step (step st Submit) (Settle st))
    /\ formData (step (step st Submit) (Settle st)) = formData st
    /\ errors (step (step st Submit) (Settle st)) = ∅.
Proof.
  intros st Hvalid Hd. unfold SignUpView.submitDisabled in Hd.
  apply orb_false_iff in Hd as [Hl Hs]. apply Nat.ltb_ge in Hs.
  assert (He : errors st = ∅) by (apply map_size_empty_iff; lia).
  assert (Ht : handleSubmit st
               = [PreventDefault; SetErrors ∅; SetErrors ∅; SetErrors ∅;
                  SetErrors ∅; SetIsLoading true; AwaitTimeout 2000;
                  SetIsLoading false; ConsoleLog (formData st)]).
  { unfold handleSubmit, Object_keys. cbn [flat_map].
    rewrite !(validateField_valid st _ _ He (Hvalid _)).
    rewrite (map_size_0 _ He). reflexivity. }
  unfold idle, submitting, step. rewrite !Ht.
  repeat split. exact Hl.
Qed.

Lemma submit_placeholder_witness :
  SignUpView.submitDisabled (run mounted (fill valid_form)) = false
  /\ network_calls (handleSubmit (run mounted (fill valid_form))) = 0
  /\ submitting (step (run mounted (fill valid_form)) Submit).
Proof.
  split; [vm_compute; reflexivity|].
  assert (H := submit_placeholder (run mounted (fill valid_form))).
  split; apply H;
    try (intros k; destruct k; vm_compute; reflexivity);
    vm_compute; reflexivity.
Defined.

(** C3 fails as stated: for the fully valid form joedoe / joe@x.com /
    Abcdef12 / Abcdef12, with the submit button enabled, the submit handler
    makes no call to the authentication collaborator, where the claim has
    exactly one. *)
Lemma submit_valid_form_no_collaborator :
  let st := run mounted (fill valid_form) in
  formData st = valid_form
  /\ errors st = ∅
  /\ SignUpView.submitDisabled st = false
  /\ fieldError valid_form Key.username (username valid_form) = None
  /\ fieldError valid_form Key.email (email valid_form) = None
  /\ fieldError valid_form Key.password (password valid_form) = None
  /\ fieldError valid_form Key.confirmPassword (confirmPassword valid_form) = None
  /\ network_calls (handleSubmit st) <> 1.
Proof.
  repeat split; try by_running. vm_compute. discriminate.
Qed.

End SignUpProps.

(** ** The sign-in page *)

Module SignInProps.
Import SignIn.

(** C10: when the trimmed e-mail address or the trimmed password is empty,
    the submit handler of the sign-in page returns at once: its whole trace
    is [e.preventDefault()], with no request, no [setIsLoading], and the
    state as it was. *)
Theorem handleSubmit_blank_returns :
  forall (st : State) (o : outcome),
    trim (email (formData st)) = [] \/ trim (password (formData st)) = [] ->
    handleSubmit st o = [PreventDefault]
    /\ network_calls (handleSubmit st o) = 0
    /\ existsb sets_isLoading (handleSubmit st o) = false
    /\ commit st (handleSubmit st o) = st.
Proof.
  intros st o H.
  assert (Hc : strict_eq (trim (email (formData st))) []
               || strict_eq (trim (password (formData st))) [] = true).
  { unfold strict_eq. apply orb_true_iff.
    destruct H as [H|H]; [left|right]; now apply bool_decide_eq_true. }
  unfold handleSubmit. rewrite Hc. repeat split.
Qed.

Lemma handleSubmit_blank_returns_witness :
  (trim (lit "   ") = [] \/ trim (lit "secret") = [])
  /\ handleSubmit (mkState (mkFormData (lit "   ") (lit "secret")) false)
       (Resolved (lit "ok"))
     = [PreventDefault].
Proof.
  split; [left; vm_compute; reflexivity|].
  apply (handleSubmit_blank_returns
           (mkState (mkFormData (lit "   ") (lit "secret")) false)
           (Resolved (lit "ok"))).
  left; vm_compute; reflexivity.
Defined.

End SignInProps.

(** ** Further properties of the sign-up page *)

Module SignUpMore.
Import SignUp SignUpSpec SignUpView SignUpProps.

(** *** The validator as a map update *)

(** [validateField] rewrites the entry of the field it validates and no
    other, and changes neither the form data nor [isLoading]. *)
Theorem validateField_touches_own_key :
  forall (st : State) (name k : Key.t) (value : jsstring),
    errors (commit st (validateField st name value)) !! k
    = (if decide (k = name) then fieldError (formData st) name value
       else errors st !! k)
    /\ formData (commit st (validateField st name value)) = formData st
    /\ isLoading (commit st (validateField st name value)) = isLoading st.
Proof.
  intros st name k value. split; [|split; reflexivity].
  destruct (decide (k = name)) as [->|Hne].
  - apply validateField_key.
  - now apply validateField_other.
Qed.

(** In a reachable state the entry of [username], [email] or [password] is
    the verdict on the current value, unless the field is still empty and
    has no entry. *)
Lemma local_entry_exact st k :
  reachable st -> k <> Key.confirmPassword ->
  errors st !! k = fieldError (formData st) k (get k (formData st))
  \/ (get k (formData st) = [] /\ errors st !! k = None).
Proof.
  intros Hreach Hk. induction Hreach as [|st ev Hreach IH].
  - right. split; [now destruct k | apply lookup_empty].
  - destruct ev as [name value| |closure].
    + rewrite step_change. cbn [errors formData].
      destruct (decide (k = name)) as [->|Hne].
      * left. rewrite validateField_key, get_set_eq.
        now apply fieldError_local.
      * rewrite validateField_other, get_set_ne by assumption.
        destruct IH as [IH|IH]; [left|now right].
        rewrite IH. now apply fieldError_local.
    + rewrite step_submit. cbn [errors formData].
      now rewrite validateField_other.
    + rewrite step_settle. cbn [errors formData]. exact IH.
Qed.

(** For a non-empty [username], [email] or [password] the errors are exact
    in every reachable state: the key is present if and only if the current
    value fails the rule of the field, with the message of that failure. *)
Theorem nonempty_local_entry_exact :
  forall (st : State) (k : Key.t),
    reachable st ->
    k <> Key.confirmPassword ->
    get k (formData st) <> [] ->
    errors st !! k = fieldError (formData st) k (get k (formData st)).
Proof.
  intros st k Hreach Hk Hne.
  destruct (local_entry_exact st k Hreach Hk) as [H|[H _]]; [exact H|].
  now destruct Hne.
Qed.

Lemma nonempty_local_entry_exact_witness :
  reachable (run mounted (fill joedoe))
  /\ Key.email <> Key.confirmPassword
  /\ get Key.email (formData (run mounted (fill joedoe))) <> []
  /\ errors (run mounted (fill joedoe)) !! Key.email
     = fieldError (formData (run mounted (fill joedoe))) Key.email
         (get Key.email (formData (run mounted (fill joedoe)))).
Proof.
  assert (Hr : reachable (run mounted (fill joedoe)))
    by (do 4 apply reach_step; apply reach_mounted).
  split; [exact Hr|].
  split; [discriminate|].
  split; [vm_compute; discriminate|].
  apply (nonempty_local_entry_exact (run mounted (fill joedoe)) Key.email).
  - exact Hr.
  - discriminate.
  - vm_compute; discriminate.
Defined.

(** *** The icons beside the user name and the e-mail address *)

Lemma truthy_fieldError_username fd v :
  truthy_entry (fieldError fd Key.username v) = (length v <? 4).
Proof. rewrite fieldError_username. now destruct (length v <? 4). Qed.

Lemma truthy_fieldError_email fd v :
  truthy_entry (fieldError fd Key.email v) = negb (test emailRegex v).
Proof. rewrite fieldError_email. now destruct (test emailRegex v). Qed.

(** In every reachable state the green check beside the user name is shown
    exactly when the current user name has at least four characters, and the
    one beside the e-mail address exactly when the current address has the
    shape local@domain.tld; a red cross is only ever shown beside a value
    that fails its rule. *)
Theorem icons_reflect_values :
  forall st : State,
    reachable st ->
    (usernameIcon st = Some IconCheck <-> 4 <= length (username (formData st)))
    /\ (emailIcon st = Some IconCheck <-> email_shape (email (formData st)))
    /\ (usernameIcon st = Some IconX -> length (username (formData st)) < 4)
    /\ (emailIcon st = Some IconX -> ~ email_shape (email (formData st))).
Proof.
  intros st Hreach.
  assert (Hu := local_entry_exact st Key.username Hreach ltac:(discriminate)).
  assert (He := local_entry_exact st Key.email Hreach ltac:(discriminate)).
  cbn [get] in Hu, He. unfold usernameIcon, emailIcon.
  rewrite <- test_emailRegex.
  repeat split.
  - destruct Hu as [-> | [-> ->]]; [|discriminate].
    rewrite truthy_fieldError_username.
    destruct (Nat.ltb_spec (length (username (formData st))) 4);
      [discriminate|]. intros _. assumption.
  - intros Hlen. destruct Hu as [-> | [Hnil _]].
    + rewrite truthy_fieldError_username.
      destruct (Nat.ltb_spec (length (username (formData st))) 4); [lia|].
      destruct (username (formData st)); [simpl in Hlen; lia | reflexivity].
    + rewrite Hnil in Hlen. simpl in Hlen. lia.
  - destruct He as [-> | [-> ->]]; [|discriminate].
    rewrite truthy_fieldError_email.
    destruct (test emailRegex (email (formData st))); [reflexivity|discriminate].
  - intros Ht. destruct He as [-> | [Hnil _]].
    + rewrite truthy_fieldError_email, Ht.
      destruct (email (formData st)); [discriminate Ht | reflexivity].
    + rewrite Hnil in Ht. discriminate Ht.
  - destruct Hu as [-> | [-> ->]]; [|discriminate].
    rewrite truthy_fieldError_username.
    destruct (Nat.ltb_spec (length (username (formData st))) 4);
      [intros _; assumption|].
    cbn [negb andb]. destruct (negb _); discriminate.
  - destruct He as [-> | [-> ->]]; [|discriminate].
    rewrite truthy_fieldError_email.
    destruct (test emailRegex (email (formData st))); [|discriminate].
    cbn [negb andb]. destruct (negb _); discriminate.
Qed.

Lemma icons_reflect_values_witness :
  reachable (run mounted (fill joedoe))
  /\ usernameIcon (run mounted (fill joedoe)) = Some IconCheck
  /\ emailIcon (run mounted (fill joedoe)) = Some IconX.
Proof.
  assert (Hr : reachable (run mounted (fill joedoe)))
    by (do 4 apply reach_step; apply reach_mounted).
  split; [exact Hr|].
  pose proof (icons_reflect_values (run mounted (fill joedoe)) Hr) as [Hu _].
  split; [apply Hu; vm_compute; lia | vm_compute; reflexivity].
Defined.

(** *** The submit button and the submit handler *)

(** Whenever the submit button is enabled, the check inside [handleSubmit]
    passes: the form starts loading, the button is disabled from then on,
    and the errors of [username], [email] and [password] stay empty. *)
Theorem enabled_submit_always_proceeds :
  forall st : State,
    submitDisabled st = false ->
    isLoading (step st Submit) = true
    /\ submitDisabled (step st Submit) = true
    /\ formData (step st Submit) = formData st
    /\ errors (step st Submit) !! Key.username = None
    /\ errors (step st Submit) !! Key.email = None
    /\ errors (step st Submit) !! Key.password = None.
Proof.
  intros st Hd. unfold submitDisabled in Hd.
  apply orb_false_iff in Hd as [Hl Hs].
  apply Nat.ltb_ge in Hs.
  assert (Hz : size (errors st) = 0) by lia.
  assert (He : errors st = ∅) by now apply map_size_empty_iff.
  rewrite step_submit. unfold submitDisabled. cbn [isLoading errors formData].
  rewrite Hz. cbn [Nat.eqb orb].
  repeat split;
    rewrite validateField_other by discriminate; rewrite He; apply lookup_empty.
Qed.

Lemma enabled_submit_always_proceeds_witness :
  submitDisabled mounted = false
  /\ isLoading (step mounted Submit) = true.
Proof.
  split; [vm_compute; reflexivity|].
  apply (enabled_submit_always_proceeds mounted). vm_compute; reflexivity.
Defined.

(** The validations that [handleSubmit] runs for [username], [email] and
    [password] leave no trace: after the handler the entries of these three
    fields are the ones of the render it ran in; only the entry of
    [confirmPassword] is recomputed, and the form data is unchanged. *)
Theorem submit_keeps_local_entries :
  forall (st : State) (k : Key.t),
    errors (step st Submit) !! k
    = (if decide (k = Key.confirmPassword)
       then fieldError (formData st) Key.confirmPassword
              (confirmPassword (formData st))
       else errors st !! k)
    /\ formData (step st Submit) = formData st.
Proof.
  intros st k. rewrite step_submit. cbn [errors formData].
  split; [|reflexivity].
  destruct (decide (k = Key.confirmPassword)) as [->|Hne].
  - apply validateField_key.
  - now apply validateField_other.
Qed.

(** When the button is enabled in a reachable state, every one of
    [username], [email] and [password] that has been filled in is valid. *)
Theorem enabled_submit_filled_fields_valid :
  forall (st : State) (k : Key.t),
    reachable st ->
    submitDisabled st = false ->
    k <> Key.confirmPassword ->
    get k (formData st) <> [] ->
    fieldError (formData st) k (get k (formData st)) = None.
Proof.
  intros st k Hreach Hd Hk Hne.
  destruct (local_entry_exact st k Hreach Hk) as [H|[H _]];
    [|now destruct Hne].
  rewrite <- H. unfold submitDisabled in Hd.
  apply orb_false_iff in Hd as [_ Hs]. apply Nat.ltb_ge in Hs.
  assert (He : errors st = ∅) by (apply map_size_empty_iff; lia).
  rewrite He. apply lookup_empty.
Qed.

Lemma enabled_submit_filled_fields_valid_witness :
  reachable (run mounted (fill valid_form))
  /\ submitDisabled (run mounted (fill valid_form)) = false
  /\ fieldError (formData (run mounted (fill valid_form))) Key.password
       (get Key.password (formData (run mounted (fill valid_form)))) = None.
Proof.
  assert (Hr : reachable (run mounted (fill valid_form)))
    by (do 4 apply reach_step; apply reach_mounted).
  split; [exact Hr|]. split; [vm_compute; reflexivity|].
  apply (enabled_submit_filled_fields_valid
           (run mounted (fill valid_form)) Key.password).
  - exact Hr.
  - vm_compute; reflexivity.
  - discriminate.
  - vm_compute; discriminate.
Defined.

(** *** The messages on screen *)

Lemma fieldError_messages fd k v m :
  fieldError fd k v = Some m -> In m (messages_of k).
Proof.
  destruct k; cbn [messages_of].
  - rewrite fieldError_username. destruct (length v <? 4); [|discriminate].
    intros [= <-]. now left.
  - rewrite fieldError_email. destruct (test emailRegex v); [discriminate|].
    intros [= <-]. now left.
  - rewrite fieldError_password. destruct (length v <? 8).
    + intros [= <-]. now left.
    + destruct (test passwordRegex v); [discriminate|].
      intros [= <-]. right; now left.
  - rewrite fieldError_confirmPassword.
    destruct (strict_eq v (password fd)); [discriminate|].
    intros [= <-]. now left.
Qed.

(** In every reachable state the message stored under a key is one of the
    messages of that very field, and it is not the empty string: testing
    [errors.username] for truth, as the page does, is testing whether the key
    is present. *)
Theorem entries_are_field_messages :
  forall (st : State) (k : Key.t) (m : jsstring),
    reachable st ->
    errors st !! k = Some m ->
    In m (messages_of k) /\ truthy_entry (errors st !! k) = true.
Proof.
  intros st k m Hreach Hm.
  assert (Hin : In m (messages_of k)).
  { revert m Hm. induction Hreach as [|st ev Hreach IH]; intros m.
    - unfold mounted. cbn [errors]. now rewrite lookup_empty.
    - destruct ev as [name value| |closure].
      + rewrite step_change. cbn [errors].
        destruct (decide (k = name)) as [->|Hne].
        * rewrite validateField_key. apply fieldError_messages.
        * rewrite validateField_other by assumption. apply IH.
      + rewrite step_submit. cbn [errors].
        destruct (decide (k = Key.confirmPassword)) as [->|Hne].
        * rewrite validateField_key. apply fieldError_messages.
        * rewrite validateField_other by assumption. apply IH.
      + rewrite step_settle. cbn [errors]. apply IH. }
  split; [exact Hin|]. rewrite Hm. cbn [truthy_entry].
  destruct k; cbn [messages_of In] in Hin;
    repeat destruct Hin as [<-|Hin]; try reflexivity; now destruct Hin.
Qed.

Lemma entries_are_field_messages_witness :
  reachable (run mounted (fill joedoe))
  /\ errors (run mounted (fill joedoe)) !! Key.email = Some msg_email
  /\ In msg_email (messages_of Key.email).
Proof.
  assert (Hr : reachable (run mounted (fill joedoe)))
    by (do 4 apply reach_step; apply reach_mounted).
  split; [exact Hr|]. split; [vm_compute; reflexivity|].
  apply (entries_are_field_messages (run mounted (fill joedoe)) Key.email
           msg_email Hr).
  vm_compute; reflexivity.
Defined.

(** *** The form data over a run of events *)

(** After any run of events each field holds the value of the last change
    event for that field, or its value before the run when there was none:
    submitting and settling never alter the form data. *)
Theorem formData_last_change :
  forall (evs : list event) (st : State) (k : Key.t),
    get k (formData (run st evs)) = last_change k evs (get k (formData st)).
Proof.
  induction evs as [|ev evs IH]; intros st k; [reflexivity|].
  unfold run, last_change in *. cbn [fold_left]. rewrite IH. f_equal.
  destruct ev as [name value| |closure].
  - rewrite step_change. cbn [formData].
    destruct (decide (name = k)) as [->|Hne].
    + apply get_set_eq.
    + apply get_set_ne. congruence.
  - now rewrite step_submit.
  - now rewrite step_settle.
Qed.

(** *** The strength meter on screen *)

Lemma strength_as_sum pw :
  getPasswordStrength pw
  = Nat.b2n (8 <=? length pw) + Nat.b2n (existsb isLower pw)
    + Nat.b2n (existsb isUpper pw) + Nat.b2n (existsb isDigit pw)
    + Nat.b2n (existsb isSymbol pw).
Proof.
  unfold getPasswordStrength.
  rewrite test_lowerRegex, test_upperRegex, test_digitRegex, test_symbolRegex.
  destruct (8 <=? length pw), (existsb isLower pw), (existsb isUpper pw),
    (existsb isDigit pw), (existsb isSymbol pw); reflexivity.
Qed.

Lemma b2n_le_1 b : Nat.b2n b <= 1.
Proof. destruct b; simpl; lia. Qed.

Lemma strength_le_5 pw : getPasswordStrength pw <= 5.
Proof.
  rewrite strength_as_sum.
  pose proof (b2n_le_1 (8 <=? length pw)).
  pose proof (b2n_le_1 (existsb isLower pw)).
  pose proof (b2n_le_1 (existsb isUpper pw)).
  pose proof (b2n_le_1 (existsb isDigit pw)).
  pose proof (b2n_le_1 (existsb isSymbol pw)). lia.
Qed.

(** Every character is a lowercase letter, an uppercase letter, a digit or
    a symbol, so a non-empty password earns at least one point. *)
Lemma strength_nonempty pw : pw <> [] -> 1 <= getPasswordStrength pw.
Proof.
  intros Hne. destruct pw as [|c pw]; [now destruct Hne|].
  rewrite strength_as_sum. cbn [existsb]. unfold isSymbol at 1.
  destruct (isLower c), (isUpper c), (isDigit c); cbn [orb negb Nat.b2n]; lia.
Qed.

(** Whenever the meter is rendered, that is for a non-empty password, it
    shows between one and five filled segments: as many as the score, all in
    the colour of the score and before the grey ones. *)
Theorem strength_bar_fills_score :
  forall pw : jsstring,
    pw <> [] ->
    1 <= getPasswordStrength pw <= 5
    /\ strengthBar (getPasswordStrength pw)
       = repeat (getPasswordStrengthColor (getPasswordStrength pw))
                (getPasswordStrength pw)
         ++ repeat "bg-gray-200" (5 - getPasswordStrength pw).
Proof.
  intros pw Hne.
  pose proof (strength_nonempty pw Hne) as H1.
  pose proof (strength_le_5 pw) as H5.
  split; [lia|].
  destruct (getPasswordStrength pw) as [|[|[|[|[|[|n]]]]]];
    try lia; reflexivity.
Qed.

Lemma strength_bar_fills_score_witness :
  lit "Abcdef12" <> []
  /\ strengthBar (getPasswordStrength (lit "Abcdef12"))
     = ["bg-green-500"; "bg-green-500"; "bg-green-500"; "bg-green-500";
        "bg-gray-200"].
Proof.
  split; [vm_compute; discriminate|].
  destruct (strength_bar_fills_score (lit "Abcdef12")) as [_ H];
    [vm_compute; discriminate|].
  rewrite H. vm_compute; reflexivity.
Defined.

(** For every password the label, the colour of the label and the colour
    of the bar agree: Weak and red for a score of 0 or 1, Medium and yellow
    for 2 or 3, Strong and green for 4 or 5.  The fall-back colour
    "bg-gray-300" and the fall-back label never show. *)
Theorem strength_label_and_colours_agree :
  forall pw : jsstring,
    let s := getPasswordStrength pw in
    (s <= 1 /\ getPasswordStrengthText s = "Weak"
     /\ strengthTextClass s = "text-red-500"
     /\ getPasswordStrengthColor s = "bg-red-500")
    \/ (2 <= s <= 3 /\ getPasswordStrengthText s = "Medium"
        /\ strengthTextClass s = "text-yellow-500"
        /\ getPasswordStrengthColor s = "bg-yellow-500")
    \/ (4 <= s <= 5 /\ getPasswordStrengthText s = "Strong"
        /\ strengthTextClass s = "text-green-500"
        /\ getPasswordStrengthColor s = "bg-green-500").
Proof.
  intros pw s. pose proof (strength_le_5 pw) as H5. fold s in H5.
  destruct s as [|[|[|[|[|[|n]]]]]]; try lia.
  - left. repeat split; lia.
  - left. repeat split; lia.
  - right; left. repeat split; lia.
  - right; left. repeat split; lia.
  - right; right. repeat split; lia.
  - right; right. repeat split; lia.
Qed.

(** Typing more characters never lowers the score. *)
Theorem strength_monotone :
  forall pw more : jsstring,
    getPasswordStrength pw <= getPasswordStrength (pw ++ more).
Proof.
  intros pw more. rewrite !strength_as_sum.
  rewrite !existsb_app, length_app.
  assert (Hl : Nat.b2n (8 <=? length pw)
               <= Nat.b2n (8 <=? length pw + length more)).
  { destruct (Nat.leb_spec 8 (length pw)) as [H|H].
    - assert (E : (8 <=? length pw + length more) = true)
        by (apply Nat.leb_le; lia).
      now rewrite E.
    - apply Nat.le_0_l. }
  assert (Hb : forall a b, Nat.b2n a <= Nat.b2n (a || b))
    by (intros [] []; simpl; lia).
  pose proof (Hb (existsb isLower pw) (existsb isLower more)).
  pose proof (Hb (existsb isUpper pw) (existsb isUpper more)).
  pose proof (Hb (existsb isDigit pw) (existsb isDigit more)).
  pose proof (Hb (existsb isSymbol pw) (existsb isSymbol more)).
  lia.
Qed.

(** *** What an accepted value looks like *)

Lemma accepted_password_kinds fd v :
  fieldError fd Key.password v = None ->
  8 <= length v /\ existsb isLower v = true /\ existsb isUpper v = true
  /\ existsb isDigit v = true.
Proof.
  rewrite fieldError_password.
  destruct (Nat.ltb_spec (length v) 8); [discriminate|].
  destruct (test passwordRegex v) eqn:Ht; [|discriminate].
  intros _. split; [assumption|]. now apply test_passwordRegex_sound.
Qed.

(** The validator never accepts a password that is shorter than eight
    characters or lacks a lowercase letter, an uppercase letter or a digit. *)
Theorem accepted_password_is_sound :
  forall (st : State) (v : jsstring),
    errors (commit st (validateField st Key.password v)) !! Key.password = None ->
    8 <= length v /\ existsb isLower v = true /\ existsb isUpper v = true
    /\ existsb isDigit v = true.
Proof.
  intros st v. rewrite validateField_key. apply accepted_password_kinds.
Qed.

Lemma accepted_password_is_sound_witness :
  errors (commit mounted (validateField mounted Key.password (lit "Abcdef12")))
    !! Key.password = None
  /\ 8 <= length (lit "Abcdef12").
Proof.
  split; [vm_compute; reflexivity|].
  apply (accepted_password_is_sound mounted (lit "Abcdef12")).
  vm_compute; reflexivity.
Defined.

(** Every password that the validator accepts is rated Strong by the meter:
    a password rated Weak or Medium is always rejected. *)
Theorem accepted_password_is_strong :
  forall (st : State) (v : jsstring),
    errors (commit st (validateField st Key.password v)) !! Key.password = None ->
    4 <= getPasswordStrength v
    /\ getPasswordStrengthText (getPasswordStrength v) = "Strong".
Proof.
  intros st v. rewrite validateField_key. intros H.
  apply accepted_password_kinds in H as (Hl & Hlo & Hup & Hd).
  pose proof (strength_le_5 v) as H5.
  assert (H4 : 4 <= getPasswordStrength v).
  { rewrite strength_as_sum, Hlo, Hup, Hd.
    apply Nat.leb_le in Hl. rewrite Hl. simpl. lia. }
  split; [exact H4|].
  destruct (getPasswordStrength v) as [|[|[|[|[|[|n]]]]]]; try lia; reflexivity.
Qed.

Lemma accepted_password_is_strong_witness :
  errors (commit mounted (validateField mounted Key.password (lit "Abcdef12")))
    !! Key.password = None
  /\ getPasswordStrengthText (getPasswordStrength (lit "Abcdef12")) = "Strong".
Proof.
  split; [vm_compute; reflexivity|].
  apply (accepted_password_is_strong mounted (lit "Abcdef12")).
  vm_compute; reflexivity.
Defined.

Lemma token_count_at l :
  Forall (fun c => isSpace c = false /\ c <> cu "@") l ->
  count_occ N.eq_dec l (cu "@") = 0
  /\ forallb (fun c => negb (isSpace c)) l = true.
Proof.
  induction 1 as [|c l [Hs Hc] _ [IHc IHs]]; [now split|].
  split.
  - rewrite count_occ_cons_neq by assumption. exact IHc.
  - cbn [forallb]. now rewrite Hs, IHs.
Qed.

(** The validator never accepts an e-mail address that has white space in
    it, that has no or more than one [@], or that is shorter than five
    characters. *)
Theorem accepted_email_is_sound :
  forall (st : State) (v : jsstring),
    errors (commit st (validateField st Key.email v)) !! Key.email = None ->
    count_occ N.eq_dec v (cu "@") = 1
    /\ forallb (fun c => negb (isSpace c)) v = true
    /\ 5 <= length v.
Proof.
  intros st v. rewrite validateField_key, fieldError_email.
  destruct (test emailRegex v) eqn:Ht; [|discriminate]. intros _.
  apply test_emailRegex in Ht
    as (l & d & t & -> & [Hl Hlt] & [Hd Hdt] & [Ht Htt]).
  apply token_count_at in Hlt as [Hlc Hls], Hdt as [Hdc Hds], Htt as [Htc Hts].
  split; [|split].
  - rewrite count_occ_app. cbn [count_occ].
    destruct (N.eq_dec (cu "@") (cu "@")) as [_|Hn]; [|now destruct Hn].
    rewrite count_occ_app. cbn [count_occ].
    destruct (N.eq_dec (cu ".") (cu "@")) as [Hn|_]; [discriminate Hn|].
    lia.
  - rewrite forallb_app. cbn [forallb]. rewrite forallb_app. cbn [forallb].
    rewrite Hls, Hds, Hts. reflexivity.
  - rewrite length_app. cbn [length]. rewrite length_app. cbn [length].
    destruct l; [now destruct Hl|]. destruct d; [now destruct Hd|].
    destruct t; [now destruct Ht|]. cbn [length]. lia.
Qed.

Lemma accepted_email_is_sound_witness :
  errors (commit mounted (validateField mounted Key.email (lit "joe@x.com")))
    !! Key.email = None
  /\ count_occ N.eq_dec (lit "joe@x.com") (cu "@") = 1.
Proof.
  split; [vm_compute; reflexivity|].
  apply (accepted_email_is_sound mounted (lit "joe@x.com")).
  vm_compute; reflexivity.
Defined.

End SignUpMore.

(** ** Further properties of the sign-in page *)

Module SignInMore.
Import SignIn.

Lemma forallb_trimStart s :
  forallb isSpace (trimStart s) = forallb isSpace s.
Proof.
  induction s as [|c s IH]; [reflexivity|].
  cbn [trimStart]. destruct (isSpace c) eqn:Hc.
  - cbn [forallb]. now rewrite Hc, IH.
  - reflexivity.
Qed.

Lemma trimStart_nil s : trimStart s = [] <-> forallb isSpace s = true.
Proof.
  induction s as [|c s IH]; [easy|].
  cbn [trimStart forallb]. destruct (isSpace c); [exact IH|].
  split; discriminate.
Qed.

Lemma forallb_rev (p : code_unit -> bool) s : forallb p (rev s) = forallb p s.
Proof.
  induction s as [|c s IH]; [reflexivity|].
  cbn [rev forallb]. rewrite forallb_app, IH. cbn [forallb].
  rewrite andb_true_r. apply andb_comm.
Qed.

(** A string trims to the empty string exactly when it consists of white
    space and line terminators only. *)
Lemma trim_nil s : trim s = [] <-> forallb isSpace s = true.
Proof.
  unfold trim, trimEnd.
  rewrite <- (forallb_trimStart s), <- (forallb_rev isSpace (trimStart s)).
  rewrite <- trimStart_nil.
  split; intros H.
  - apply (f_equal (@rev _)) in H. now rewrite rev_involutive in H.
  - now rewrite H.
Qed.

Lemma blank_test s : strict_eq (trim s) [] = forallb isSpace s.
Proof.
  apply eq_true_iff_eq. unfold strict_eq.
  rewrite bool_decide_eq_true. apply trim_nil.
Qed.

(** The sign-in form sends one request when both the e-mail address and the
    password hold a character that is not white space, and none otherwise,
    whatever the request would have returned. *)
Theorem signin_requests :
  forall (st : State) (o : outcome),
    network_calls (handleSubmit st o)
    = if forallb isSpace (email (formData st))
         || forallb isSpace (password (formData st))
      then 0 else 1.
Proof.
  intros st o. unfold handleSubmit. rewrite !blank_test.
  destruct (forallb isSpace (email (formData st))
            || forallb isSpace (password (formData st)));
    [reflexivity|]. now destruct o.
Qed.

(** With both fields filled in, the handler sets [isLoading] before it posts
    the form data to the login address, and clears it again when the request
    settles, whether it resolved or was rejected: the [finally] block ends
    every trace, and the form data is never changed. *)
Theorem signin_loading_always_cleared :
  forall (st : State) (o : outcome),
    trim (email (formData st)) <> [] ->
    trim (password (formData st)) <> [] ->
    before_suspension (handleSubmit st o)
    = [PreventDefault; SetIsLoading true;
       AwaitAxiosPost login_url (formData st)]
    /\ isLoading (commit st (before_suspension (handleSubmit st o))) = true
    /\ last (handleSubmit st o) = Some (SetIsLoading false)
    /\ commit st (handleSubmit st o) = mkState (formData st) false.
Proof.
  intros st o He Hp. unfold handleSubmit, strict_eq.
  rewrite !bool_decide_eq_false_2 by assumption. cbn [orb].
  destruct o; repeat split.
Qed.

Lemma signin_loading_always_cleared_witness :
  trim (lit "joe@x.com") <> []
  /\ trim (lit "Abcdef12") <> []
  /\ commit (mkState (mkFormData (lit "joe@x.com") (lit "Abcdef12")) false)
       (handleSubmit (mkState (mkFormData (lit "joe@x.com") (lit "Abcdef12")) false)
                     Rejected)
     = mkState (mkFormData (lit "joe@x.com") (lit "Abcdef12")) false.
Proof.
  split; [vm_compute; discriminate|]. split; [vm_compute; discriminate|].
  apply (signin_loading_always_cleared
           (mkState (mkFormData (lit "joe@x.com") (lit "Abcdef12")) false)
           Rejected); vm_compute; discriminate.
Defined.

End SignInMore.

(** ** The confidence bars *)

Module PredictionsProps.
Import Predictions.

Lemma map_const_seq (x : string) n start :
  List.map (fun _ => x) (seq start n) = repeat x n.
Proof.
  revert start; induction n as [|n IH]; intros start; [reflexivity|].
  cbn [seq List.map repeat]. now rewrite IH.
Qed.

(** For a whole-number confidence the card renders exactly when the
    confidence lies between 0 and 5, and then shows five segments: as many
    red ones as the confidence, followed by grey ones.  Outside that range
    one of the two arrays cannot be built and rendering throws. *)
Theorem confidenceBars_range :
  forall confidence : Z,
    confidenceBars confidence
    = if ((0 <=? confidence) && (confidence <=? 5))%Z
      then Some (repeat bar_red (Z.to_nat confidence)
                 ++ repeat bar_grey (5 - Z.to_nat confidence))
      else None.
Proof.
  intros c. unfold confidenceBars, Array_keys.
  assert (E : (2 ^ 32 = 4294967296)%Z) by reflexivity. rewrite !E.
  destruct (Z.leb_spec 0 c) as [H0|H0]; cbn [andb]; [|reflexivity].
  destruct (Z.leb_spec c 5) as [H5|H5].
  - destruct (Z.ltb_spec c 4294967296) as [_|Hb]; [|lia].
    destruct (Z.leb_spec 0 (5 - c)) as [_|Hn]; [|lia].
    destruct (Z.ltb_spec (5 - c) 4294967296) as [_|Hb]; [|lia].
    cbn [andb]. rewrite !map_const_seq.
    now replace (Z.to_nat (5 - c)) with (5 - Z.to_nat c) by lia.
  - destruct (Z.ltb_spec c 4294967296); [|reflexivity].
    destruct (Z.leb_spec 0 (5 - c)) as [Hn|_]; [lia|]. reflexivity.
Qed.

End PredictionsProps.
